(** * aws-app-sync: the reconciliation engine, embedded in Rocq

    A shallow embedding of the reconcilers of the AppSync component
    (lib/functions.js, lib/apikeys.js, lib/schema.js, lib/role.js) and
    the properties its specification states about them.

    JavaScript objects are finite maps from field names to scalar values,
    Ramda's helpers are the functions of [Ramda], and every call that
    leaves the process (AppSync, IAM, STS, the timer) is an [event]
    appended to a trace, answered by a [Provider] that sees the trace so
    far. *)

From stdpp Require Import base strings gmap list option pretty.
From Stdlib Require Import ZArith Lia.

Open Scope Z_scope.

(** ** JavaScript values *)

(** The scalar values the reconcilers read and write. A number is an
    integer-valued double ([VNum]) or [VNaN]. *)
Inductive jsval :=
  | VUndef
  | VNull
  | VBool (b : bool)
  | VNum (z : Z)
  | VNaN
  | VStr (s : string).

#[global] Instance jsval_eq_dec : EqDecision jsval.
Proof. solve_decision. Defined.

#[global] Instance jsval_inhabited : Inhabited jsval := populate VUndef.

(** A plain object: own enumerable properties with scalar values. A key
    bound to [VUndef] is present with the value [undefined]. *)
Abbreviation obj := (gmap string jsval).

(** [o.k]: the property, [undefined] when the key is absent. *)
Definition prop (k : string) (o : obj) : jsval := default VUndef (o !! k).

(** ToBoolean. *)
Definition truthy (v : jsval) : bool :=
  match v with
  | VUndef | VNull | VNaN => false
  | VBool b => b
  | VNum z => negb (z =? 0)
  | VStr s => negb (String.eqb s EmptyString)
  end.

(** [a || b]. *)
Definition js_or (a b : jsval) : jsval := if truthy a then a else b.

(** A template literal placeholder: ToString. *)
Definition template (v : jsval) : string :=
  match v with
  | VUndef => "undefined"
  | VNull => "null"
  | VBool true => "true"
  | VBool false => "false"
  | VNum z => pretty z
  | VNaN => "NaN"
  | VStr s => s
  end.

(** Every array, the empty one included, is truthy. *)
Definition truthyArray {A} (l : list A) : bool := true.

(** An input that may be absent, a single value, or an array. *)
Inductive maybeList (A : Type) :=
  | Missing
  | Single (a : A)
  | Many (l : list A).
Arguments Missing {A}.
Arguments Single {A} a.
Arguments Many {A} l.

(** What [find] returned is [undefined]: [isNil] and [not] agree on it,
    a found object being truthy. *)
Definition notFound {A} (x : option A) : bool :=
  match x with None => true | Some _ => false end.

(** ** Ramda *)

Module Ramda.

Definition isNil (v : jsval) : bool :=
  match v with VUndef | VNull => true | _ => false end.

Definition not (v : jsval) : bool := negb (truthy v).

(** [R.equals] on scalars: same type and same value, NaN equal to itself. *)
Definition equals (a b : jsval) : bool := bool_decide (a = b).

(** [R.equals] on plain objects: same keys, equal values. *)
Definition equalsObj (a b : obj) : bool := bool_decide (a = b).

(** [R.merge l r]: the properties of [r] win. *)
Definition merge (l r : obj) : obj := r ∪ l.

(** [R.pick keys o]: the listed keys that [o] has. *)
Definition pick (keys : list string) (o : obj) : obj :=
  filter (λ kv, kv.1 ∈ keys) o.

(** [R.find]: the first element satisfying the predicate. *)
Definition find {A} (f : A → bool) (l : list A) : option A := List.find f l.

(** [R.propEq name val o]. *)
Definition propEq (name : string) (val : jsval) (o : obj) : bool :=
  equals val (prop name o).

Definition is_Number (v : jsval) : bool :=
  match v with VNum _ | VNaN => true | _ => false end.

Definition includes (v : jsval) (l : list jsval) : bool := bool_decide (v ∈ l).

(** [R.difference first second]: walk [first], keep an element the first
    time it is seen unless [second] holds it (value equality). *)
Fixpoint differenceFrom {A} `{EqDecision A} (seen first : list A) : list A :=
  match first with
  | [] => []
  | x :: rest =>
      if bool_decide (x ∈ seen) then differenceFrom seen rest
      else x :: differenceFrom (x :: seen) rest
  end.

Definition difference {A} `{EqDecision A} (first second : list A) : list A :=
  differenceFrom second first.

End Ramda.

Import Ramda.

(** ** Errors, events and the promise monad *)

Inductive error :=
  | ConfigurationError (msg : string)
  | ServiceError (code : string)
  | TypeError (msg : string)
  | ReferenceError (msg : string).

(** [error.code]: only errors of the SDK carry one. *)
Definition error_code (e : error) : jsval :=
  match e with ServiceError c => VStr c | _ => VUndef end.

(** One IAM policy statement. *)
Record statement := Statement {
  Action : list string;
  Effect : string;
  Resource : list jsval
}.

(** What leaves the process, in the order it is issued. *)
Inductive event :=
  | EvListFunctions (apiId : jsval)
  | EvCreateFunction (params : obj)
  | EvUpdateFunction (params : obj)
  | EvDeleteFunction (apiId functionId : jsval)
  | EvListApiKeys (apiId : jsval)
  | EvCreateApiKey (params : obj)
  | EvUpdateApiKey (params : obj)
  | EvDeleteApiKey (apiId id : jsval)
  | EvStartSchemaCreation (apiId : jsval) (definition : string)
  | EvGetSchemaCreationStatus (apiId : jsval)
  | EvGetAccountId
  | EvCreateRole (roleName : string)
  | EvCreatePolicy (policyName : string) (statements : list (option statement))
  | EvAttachRolePolicy (roleName : string) (policyArn : jsval)
  | EvSleep (ms : Z).

Abbreviation trace := (list event).

(** The services: each operation answers from the trace so far and its
    parameters, with the error code of a rejected request or the part of
    the response the code reads. The listings are fully paginated ones. *)
Record Provider := {
  listFunctions : trace → jsval → string + list obj;
  createFunction : trace → obj → string + obj;
  updateFunction : trace → obj → string + unit;
  deleteFunction : trace → jsval → jsval → string + unit;
  listApiKeys : trace → jsval → string + list obj;
  createApiKey : trace → obj → string + obj;
  updateApiKey : trace → obj → string + unit;
  deleteApiKey : trace → jsval → jsval → string + unit;
  startSchemaCreation : trace → jsval → string → string + unit;
  getSchemaCreationStatus : trace → jsval → string + jsval;
  getAccountId : trace → string + jsval;
  iamCreateRole : trace → string → string + obj;
  iamCreatePolicy : trace → string → list (option statement) → string + obj;
  iamAttachRolePolicy : trace → string → jsval → string + unit
}.

(** The host: Node's [path.join], the file system, the hash behind
    [checksum], [Date.parse] and the match of the Elasticsearch endpoint
    pattern (its first capture group). *)
Record Host := {
  path_join : string → string → string;
  fs : string → option string;
  sha : string → string;
  Date_parse : string → option Z;
  esEndpointExec : string → option string
}.

(** The state of an awaited computation: settled with a value, rejected,
    or still waiting when the fuel of a polling loop ran out. *)
Inductive result (A : Type) :=
  | Ok (a : A)
  | Throw (e : error)
  | Pending.
Arguments Ok {A} a.
Arguments Throw {A} e.
Arguments Pending {A}.

Definition M (A : Type) : Type := trace → result A * trace.

Definition ret {A} (a : A) : M A := λ tr, (Ok a, tr).
Definition throw {A} (e : error) : M A := λ tr, (Throw e, tr).
Definition pending {A} : M A := λ tr, (Pending, tr).

Definition bind {A B} (m : M A) (k : A → M B) : M B := λ tr,
  match m tr with
  | (Ok a, tr') => k a tr'
  | (Throw e, tr') => (Throw e, tr')
  | (Pending, tr') => (Pending, tr')
  end.

#[global] Instance M_ret : MRet M := @ret.
#[global] Instance M_bind : MBind M := λ A B k m, bind m k.

(** A synchronous step that may throw. *)
Definition lift {A} (r : result A) : M A := λ tr, (r, tr).

(** [service.op(params).promise()]: the request is recorded, then answered. *)
Definition call {A} (ev : event) (answer : trace → string + A) : M A := λ tr,
  match answer tr with
  | inl code => (Throw (ServiceError code), tr ++ [ev])
  | inr a => (Ok a, tr ++ [ev])
  end.

(** [try { m } catch (error) { h error }]. *)
Definition try_catch {A} (m : M A) (h : error → M A) : M A := λ tr,
  match m tr with
  | (Throw e, tr') => h e tr'
  | other => other
  end.

(** [Promise.all(map(async ..., l))]: every callback runs to its first
    await in list order, so every request is issued, also when an
    earlier one is rejected; the rejection reported is the one of the
    earliest item. *)
Fixpoint promise_all {A} (ps : list (M A)) : M (list A) := λ tr,
  match ps with
  | [] => (Ok [], tr)
  | p :: rest =>
      let '(r, tr1) := p tr in
      let '(rs, tr2) := promise_all rest tr1 in
      (match r with
       | Ok a => match rs with
                 | Ok l => Ok (a :: l)
                 | Throw e => Throw e
                 | Pending => Pending
                 end
       | Throw e => Throw e
       | Pending => Pending
       end, tr2)
  end.

(** A synchronous [map] whose callback may throw: the first throw ends it. *)
Fixpoint mapResult {A B} (f : A → result B) (l : list A) : result (list B) :=
  match l with
  | [] => Ok []
  | x :: rest =>
      match f x with
      | Ok y => match mapResult f rest with
                | Ok ys => Ok (y :: ys)
                | Throw e => Throw e
                | Pending => Pending
                end
      | Throw e => Throw e
      | Pending => Pending
      end
  end.

(** ** lib/index.js *)

Module Lib.

(** Modelled from the spec: [defaultToAnArray] of lib/index.js, the
    spec's normalizeList: undefined gives the empty sequence, a scalar a
    singleton, a sequence is unchanged. *)
Definition defaultToAnArray {A} (x : maybeList A) : list A :=
  match x with
  | Missing => []
  | Single a => [a]
  | Many l => l
  end.

(** Modelled from the spec: [equalsByKeys] of lib/index.js, the spec's
    keyedEquals: the two objects agree on every field of [keys], an
    absent field counting as undefined. *)
Definition equalsByKeys (keys : list string) (a b : obj) : bool :=
  forallb (λ k, equals (prop k a) (prop k b)) keys.

(** Does a later element equal an earlier one? *)
Fixpoint hasDuplicates {A} `{EqDecision A} (l : list A) : bool :=
  match l with
  | [] => false
  | x :: rest => bool_decide (x ∈ rest) || hasDuplicates rest
  end.

(** Modelled from the spec: [checkForDuplicates] of lib/index.js, the
    spec's duplicateCheck: fails with a ConfigurationError if two
    elements share identical projections onto [keys]. *)
Definition checkForDuplicates (keys : list string) (l : list obj) : result unit :=
  if hasDuplicates (pick keys <$> l)
  then Throw (ConfigurationError "duplicated items")
  else Ok tt.

(** Modelled from the spec: [checkForRequired] of lib/index.js: fails
    with a ConfigurationError when a required field is missing. *)
Definition checkForRequired (keys : list string) (o : obj) : result unit :=
  if forallb (λ k, negb (isNil (prop k o))) keys
  then Ok tt
  else Throw (ConfigurationError "required field missing").

(** Modelled from the spec: [readIfFile] of lib/index.js: the text of
    the file when the argument is the path of one, the argument
    unchanged otherwise. *)
Definition readIfFile (H : Host) (pathOrText : string) : string :=
  match fs H pathOrText with
  | Some text => text
  | None => pathOrText
  end.

(** Modelled from the spec: [checksum] of lib/index.js, a stable hash
    of the text. *)
Definition checksum (H : Host) (text : string) : string := sha H text.

(** Modelled from the spec: [sleep] of lib/index.js, a timer. *)
Definition sleep (ms : Z) : M unit := λ tr, (Ok tt, tr ++ [EvSleep ms]).

(** [path.join(a, b)]: both arguments must be strings. *)
Definition pathJoin (H : Host) (a b : jsval) : result string :=
  match a, b with
  | VStr a, VStr b => Ok (path_join H a b)
  | _, _ => Throw (TypeError "The path argument must be of type string")
  end.

End Lib.

Import Lib.


#[global] Instance result_ret : MRet result := @Ok.
#[global] Instance result_bind : MBind result := λ A B k r,
  match r with
  | Ok a => k a
  | Throw e => Throw e
  | Pending => Pending
  end.

(** ** The configuration and the persisted state *)

(** A data source of the configuration, as lib/role.js reads it. *)
Record dataSource := DataSource {
  ds_type : jsval;
  ds_serviceRoleArn : jsval;
  ds_config : obj
}.

(** An API key of the configuration: a bare name or an object. *)
Inductive apiKeyInput :=
  | KeyString (s : string)
  | KeyObject (o : obj).

(** The configuration object handed to the reconcilers. *)
Record Config := {
  cfg_apiId : jsval;
  cfg_name : jsval;
  cfg_region : jsval;
  cfg_src : jsval;
  cfg_schema : jsval;
  cfg_isApiCreator : jsval;
  cfg_dataSources : option (list dataSource);
  cfg_functions : maybeList obj;
  cfg_apiKeys : maybeList apiKeyInput
}.

(** The state persisted by the last run. Its lists are written by the
    component itself, as arrays, or are absent. *)
Record State := {
  st_schemaChecksum : jsval;
  st_functions : option (list obj);
  st_apiKeys : option (list obj)
}.

Definition ofState {A} (x : option (list A)) : maybeList A :=
  match x with
  | None => Missing
  | Some l => Many l
  end.

(** ** lib/functions.js *)

Module Functions.

(** The fields two functions are compared on. *)
Definition comparedKeys : list string :=
  ["dataSourceName"; "name"; "responseMappingTemplate"; "requestMappingTemplate"].

(** The natural key of a function. *)
Definition naturalKey : list string := ["name"; "dataSource"].

Section WithHost.
Context (H : Host) (P : Provider).

(** The callback that builds [functionsWithTemplates]: both templates
    are read from the path joined from [config.src] and [func.request]. *)
Definition withTemplates (config : Config) (func : obj) : result obj :=
  requestPath ← pathJoin H (cfg_src config) (prop "request" func);
  let requestMappingTemplate := readIfFile H requestPath in
  responsePath ← pathJoin H (cfg_src config) (prop "request" func);
  let responseMappingTemplate := readIfFile H responsePath in
  Ok (merge func
        (<["requestMappingTemplate" := VStr requestMappingTemplate]>
        (<["responseMappingTemplate" := VStr responseMappingTemplate]>
        (<["dataSourceName" := prop "dataSource" func]> ∅)))).

(** The deployed function with the name and data source of [func]. *)
Definition matchDeployed (deployedFunctions : list obj) (func : obj) : option obj :=
  find (λ d, equals (prop "name" d) (prop "name" func)
             && equals (prop "dataSourceName" d) (prop "dataSourceName" func))
       deployedFunctions.

(** The mode computed for a function with its templates resolved. *)
Definition modeOf (deployedFunctions : list obj) (func : obj) : string :=
  let deployedFunction := matchDeployed deployedFunctions func in
  let functionEquals :=
    match deployedFunction with
    | None => false
    | Some d => equalsByKeys comparedKeys d func
    end in
  if negb functionEquals
  then (if notFound deployedFunction then "create" else "update")
  else "ignore".

(** The callback that builds [functionsToDeploy]. *)
Definition toDeploy (deployedFunctions : list obj) (func : obj) : obj :=
  let deployedFunction := matchDeployed deployedFunctions func in
  merge func
    (<["mode" := VStr (modeOf deployedFunctions func)]>
    (<["functionId" := match deployedFunction with
                       | Some d => prop "functionId" d
                       | None => VUndef
                       end]> ∅)).

Definition functionParams (config : Config) (func : obj) : obj :=
  <["apiId" := cfg_apiId config]>
  (<["name" := prop "name" func]>
  (<["requestMappingTemplate" := prop "requestMappingTemplate" func]>
  (<["responseMappingTemplate" := prop "responseMappingTemplate" func]>
  (<["functionVersion" := js_or (prop "functionVersion" func) (VStr "2018-05-29")]>
  (<["dataSourceName" := prop "dataSource" func]>
  (<["description" := prop "description" func]> ∅)))))).

(** The callback of the last [Promise.all]: create, update or leave. *)
Definition deploy (config : Config) (func : obj) : M obj :=
  let params := functionParams config func in
  if equals (prop "mode" func) (VStr "create") then
    functionConfiguration ← call (EvCreateFunction params) (λ tr, createFunction P tr params);
    mret (<["functionId" := prop "functionId" functionConfiguration]> func)
  else if equals (prop "mode" func) (VStr "update") then
    let params' := merge params (<["functionId" := prop "functionId" func]> ∅) in
    _ ← call (EvUpdateFunction params') (λ tr, updateFunction P tr params');
    mret func
  else mret func.

Definition createOrUpdateFunctions (config : Config) : M (list obj) :=
  _ ← lift (checkForDuplicates naturalKey (defaultToAnArray (cfg_functions config)));
  deployedFunctions ← call (EvListFunctions (cfg_apiId config))
                           (λ tr, listFunctions P tr (cfg_apiId config));
  functionsWithTemplates ←
    lift (mapResult (withTemplates config) (defaultToAnArray (cfg_functions config)));
  let functionsToDeploy := toDeploy deployedFunctions <$> functionsWithTemplates in
  promise_all (deploy config <$> functionsToDeploy).

(** The projections of the prior state that the configuration lacks. *)
Definition obsoleteFunctions (config : Config) (state : State) : list obj :=
  difference (pick naturalKey <$> defaultToAnArray (ofState (st_functions state)))
             (pick naturalKey <$> defaultToAnArray (cfg_functions config)).

(** The prior entry an obsolete projection is deleted through. *)
Definition stateFunction (state : State) (func : obj) : option obj :=
  match st_functions state with
  | None => None
  | Some fs =>
      find (λ s, equals (prop "name" s) (prop "name" func)
                 && equals (prop "dataSource" s) (prop "dataSource" func)) fs
  end.

(** The callback of [removeObsoleteFunctions]. *)
Definition remove (config : Config) (state : State) (func : obj) : M unit :=
  match stateFunction state func with
  | None => throw (TypeError "Cannot destructure property functionId of undefined")
  | Some s =>
      let functionId := prop "functionId" s in
      try_catch
        (call (EvDeleteFunction (cfg_apiId config) functionId)
              (λ tr, deleteFunction P tr (cfg_apiId config) functionId))
        (λ error,
           if negb (equals (error_code error) (VStr "NotFoundException"))
           then throw error
           else mret tt)
  end.

Definition removeObsoleteFunctions (config : Config) (state : State) : M unit :=
  _ ← promise_all (remove config state <$> obsoleteFunctions config state);
  mret tt.

End WithHost.
End Functions.

(** ** lib/apikeys.js *)

Module ApiKeys.

(** [Date]'s range of time values, in milliseconds. *)
Definition maxTime : Z := 8640000000000000.

Definition timeClip (t : Z) : option Z :=
  if Z.abs t <=? maxTime then Some t else None.

(** [Math.round(t / 1000)] for an integer [t]: to the nearest integer,
    a half upwards. *)
Definition roundSeconds (t : Z) : Z := (t + 500) / 1000.

(** [v < bound] on a number ([false] for NaN). *)
Definition ltNum (v : jsval) (bound : Z) : bool :=
  match v with VNum z => z <? bound | _ => false end.

(** [v * k] on a number. *)
Definition timesNum (v : jsval) (k : Z) : jsval :=
  match v with VNum z => VNum (z * k) | _ => VNaN end.

Definition dateToParse (expires : jsval) : jsval :=
  if is_Number expires && ltNum expires 1000000000000
  then timesNum expires 1000
  else expires.

Section WithHost.
Context (H : Host) (P : Provider).

(** [new Date(v).getTime()], [None] for NaN. *)
Definition getTime (v : jsval) : option Z :=
  match v with
  | VNum z => timeClip z
  | VNaN => None
  | VStr s => Date_parse H s ≫= timeClip
  | VBool b => Some (if b then 1 else 0)
  | VNull => Some 0
  | VUndef => None
  end.

(** The [expires] sent to the provider. *)
Definition expiresSeconds (expires : jsval) : jsval :=
  let d := dateToParse expires in
  if negb (isNil d)
  then match getTime d with
       | Some t => VNum (roundSeconds t)
       | None => VNaN
       end
  else VUndef.

Definition formatInputApiKeys (apiKeys : maybeList apiKeyInput) : list obj :=
  (λ apiKey, match apiKey with
             | KeyString s => <["name" := VStr s]> ∅
             | KeyObject o => o
             end) <$> defaultToAnArray apiKeys.

(** The keys of the prior state the provider still holds, each merged
    with what the provider reports for it. *)
Definition stateApiKeys (deployedApiKeys : list obj) (state : State) : list obj :=
  foldl (λ acc stateApiKey,
           match find (propEq "id" (prop "id" stateApiKey)) deployedApiKeys with
           | Some deployedApiKey => acc ++ [merge stateApiKey deployedApiKey]
           | None => acc
           end)
        [] (defaultToAnArray (ofState (st_apiKeys state))).

(** Has the declared description or expiry changed? *)
Definition changed (apiKey stateApiKey : obj) : bool :=
  (negb (isNil (prop "description" apiKey))
   && negb (equals (prop "description" apiKey) (prop "description" stateApiKey)))
  || (negb (isNil (prop "expires" apiKey))
      && negb (equals (prop "expires" apiKey) (prop "expires" stateApiKey))).

(** The callback that builds [apiKeysToDeploy]. *)
Definition toDeploy (stateKeys : list obj) (apiKey : obj) : result obj :=
  _ ← checkForRequired ["name"] apiKey;
  match find (propEq "name" (prop "name" apiKey)) stateKeys with
  | None => Ok (merge apiKey (<["mode" := VStr "create"]> ∅))
  | Some stateApiKey =>
      if changed apiKey stateApiKey
      then Ok (merge (merge stateApiKey (<["mode" := VStr "update"]> ∅)) apiKey)
      else Ok (merge (merge stateApiKey (<["mode" := VStr "ignore"]> ∅)) apiKey)
  end.

Definition createParams (config : Config) (currentApiKey : obj) : obj :=
  <["apiId" := cfg_apiId config]>
  (<["description" := prop "description" currentApiKey]>
  (<["expires" := expiresSeconds (prop "expires" currentApiKey)]> ∅)).

Definition updateParams (config : Config) (currentApiKey : obj) : obj :=
  <["apiId" := cfg_apiId config]>
  (<["id" := prop "id" currentApiKey]>
  (<["description" := prop "description" currentApiKey]>
  (<["expires" := expiresSeconds (prop "expires" currentApiKey)]> ∅))).

(** The callback of the last [Promise.all]. *)
Definition deploy (config : Config) (apiKey : obj) : M obj :=
  let currentApiKey := apiKey in
  if equals (prop "mode" currentApiKey) (VStr "create") then
    let params := createParams config currentApiKey in
    response ← call (EvCreateApiKey params) (λ tr, createApiKey P tr params);
    mret (pick ["name"; "id"]
            (merge currentApiKey (<["id" := prop "id" response]> ∅)))
  else if equals (prop "mode" currentApiKey) (VStr "update") then
    let params := updateParams config currentApiKey in
    _ ← call (EvUpdateApiKey params) (λ tr, updateApiKey P tr params);
    mret (pick ["name"; "id"] currentApiKey)
  else mret (pick ["name"; "id"] currentApiKey).

Definition createOrUpdateApiKeys (config : Config) (state : State) : M (list obj) :=
  deployedApiKeys ← call (EvListApiKeys (cfg_apiId config))
                         (λ tr, listApiKeys P tr (cfg_apiId config));
  let stateKeys := stateApiKeys deployedApiKeys state in
  apiKeysToDeploy ←
    lift (mapResult (toDeploy stateKeys) (formatInputApiKeys (cfg_apiKeys config)));
  promise_all (deploy config <$> apiKeysToDeploy).

End WithHost.
End ApiKeys.

(** ** lib/schema.js *)

Module Schema.

(** The statuses that end the wait. *)
Definition terminal : list jsval :=
  [VStr "FAILED"; VStr "SUCCESS"; VStr "NOT_APPLICABLE"].

(** The schema to read: the declared one, [schema.graphql] for the
    creator of the API who declares none, nothing otherwise. *)
Definition schemaName (config : Config) : option jsval :=
  if isNil (cfg_schema config)
  then (if not (cfg_isApiCreator config) then None else Some (VStr "schema.graphql"))
  else Some (cfg_schema config).

Section WithHost.
Context (H : Host) (P : Provider).

(** The [do ... while (waiting)] loop, one fuel unit per status request. *)
Fixpoint waitForSchema (fuel : nat) (config : Config) : M unit :=
  match fuel with
  | O => pending
  | S fuel' =>
      status ← call (EvGetSchemaCreationStatus (cfg_apiId config))
                    (λ tr, getSchemaCreationStatus P tr (cfg_apiId config));
      if includes status terminal
      then mret tt
      else (_ ← sleep 1000; waitForSchema fuel' config)
  end.

Definition createSchema (fuel : nat) (config : Config) (state : State) : M jsval :=
  match schemaName config with
  | None => mret VUndef
  | Some schema =>
      file ← lift (pathJoin H (cfg_src config) schema);
      let schema := readIfFile H file in
      let schemaChecksum := checksum H schema in
      _ ← (if negb (equals (VStr schemaChecksum) (st_schemaChecksum state))
           then (_ ← call (EvStartSchemaCreation (cfg_apiId config) schema)
                          (λ tr, startSchemaCreation P tr (cfg_apiId config) schema);
                 waitForSchema fuel config)
           else mret tt);
      mret (VStr schemaChecksum)
  end.

End WithHost.
End Schema.

(** ** lib/role.js *)

Module Role.

(** The accumulator of the reduction: data source configurations by
    type, in the order the types were first met (the order in which
    [toPairs] lists the keys of an object for keys such as the type
    names, which are neither array indices nor members of
    [Object.prototype]). *)
Definition lookupType (type : string) (acc : list (string * list obj)) : option (list obj) :=
  snd <$> List.find (λ p, String.eqb (fst p) type) acc.

Fixpoint assignType (type : string) (configs : list obj) (acc : list (string * list obj))
  : list (string * list obj) :=
  match acc with
  | [] => [(type, configs)]
  | (t, cs) :: rest =>
      if String.eqb t type then (t, configs) :: rest
      else (t, cs) :: assignType type configs rest
  end.

(** The reducer of [createServiceRole]. *)
Definition collect (acc : list (string * list obj)) (ds : dataSource)
  : list (string * list obj) :=
  if isNil (ds_serviceRoleArn ds) then
    let type := template (ds_type ds) in
    let acc := if notFound (lookupType type acc) then assignType type [] acc else acc in
    let configs := default [] (lookupType type acc) in
    let existingItem := find (λ dataSourceConfig, equalsObj dataSourceConfig (ds_config ds)) configs in
    if notFound existingItem
    then assignType type (configs ++ [ds_config ds]) acc
    else acc
  else acc.

Definition lambdaActions : list string := ["lambda:invokeFunction"].

Definition dynamodbActions : list string :=
  ["dynamodb:DeleteItem"; "dynamodb:GetItem"; "dynamodb:PutItem"; "dynamodb:Query";
   "dynamodb:Scan"; "dynamodb:UpdateItem"; "dynamodb:BatchGetItem";
   "dynamodb:BatchWriteItem"].

Definition elasticsearchActions : list string :=
  ["es:ESHttpDelete"; "es:ESHttpGet"; "es:ESHttpHead"; "es:ESHttpPost"; "es:ESHttpPut"].

Definition rdsActions : list string :=
  ["rds-data:DeleteItems"; "rds-data:ExecuteSql"; "rds-data:ExecuteStatement";
   "rds-data:GetItems"; "rds-data:InsertItems"; "rds-data:UpdateItems"].

Definition secretsActions : list string := ["secretsmanager:GetSecretValue"].

Section WithHost.
Context (H : Host) (P : Provider).

Definition lambdaResources (c : obj) : list jsval :=
  [prop "lambdaFunctionArn" c;
   VStr (template (prop "lambdaFunctionArn" c) +:+ ":*")].

Definition tableArn (inputs : Config) (accountId : jsval) (c : obj) : string :=
  "arn:aws:dynamodb:" +:+ template (js_or (prop "region" c) (cfg_region inputs))
  +:+ ":" +:+ template (js_or (prop "accountId" c) accountId)
  +:+ ":table/" +:+ template (prop "tableName" c).

Definition dynamodbResources (inputs : Config) (accountId : jsval) (c : obj) : list jsval :=
  [VStr (tableArn inputs accountId c); VStr (tableArn inputs accountId c +:+ "/*")].

(** The pattern must match the endpoint: the capture is read from the
    result of [exec] without a test. *)
Definition elasticsearchResource (inputs : Config) (accountId : jsval) (c : obj)
  : result jsval :=
  match esEndpointExec H (template (prop "endpoint" c)) with
  | None => Throw (TypeError "Cannot read property 1 of null")
  | Some domain =>
      Ok (VStr ("arn:aws:es:" +:+ template (js_or (prop "region" c) (cfg_region inputs))
                +:+ ":" +:+ template (js_or (prop "accountId" c) accountId)
                +:+ ":domain/" +:+ domain))
  end.

(** The region falls back on [config.region], and no [config] is in
    scope in lib/role.js. *)
Definition clusterArn (accountId : jsval) (c : obj) : result string :=
  if truthy (prop "region" c)
  then Ok ("arn:aws:rds:" +:+ template (prop "region" c)
           +:+ ":" +:+ template (js_or (prop "accountId" c) accountId)
           +:+ ":cluster:" +:+ template (prop "dbClusterIdentifier" c))
  else Throw (ReferenceError "config is not defined").

Definition rdsResources (accountId : jsval) (c : obj) : result (list jsval) :=
  a ← clusterArn accountId c;
  b ← clusterArn accountId c;
  Ok [VStr a; VStr (b +:+ ":*")].

Definition secretResources (c : obj) : list jsval :=
  [prop "awsSecretStoreArn" c;
   VStr (template (prop "awsSecretStoreArn" c) +:+ ":*")].

(** The statements of one type; a type outside the four known ones
    yields [undefined]. *)
Definition statementsOf (inputs : Config) (accountId : jsval)
    (entry : string * list obj) : result (list (option statement)) :=
  let '(type, dataSourceConfigs) := entry in
  if String.eqb type "AWS_LAMBDA" then
    Ok [Some (Statement lambdaActions "Allow"
                (concat (lambdaResources <$> dataSourceConfigs)))]
  else if String.eqb type "AMAZON_DYNAMODB" then
    Ok [Some (Statement dynamodbActions "Allow"
                (concat (dynamodbResources inputs accountId <$> dataSourceConfigs)))]
  else if String.eqb type "AMAZON_ELASTICSEARCH" then
    resources ← mapResult (elasticsearchResource inputs accountId) dataSourceConfigs;
    Ok [Some (Statement elasticsearchActions "Allow" resources)]
  else if String.eqb type "RELATIONAL_DATABASE" then
    resources ← mapResult (rdsResources accountId) dataSourceConfigs;
    Ok [Some (Statement rdsActions "Allow" (concat resources));
        Some (Statement secretsActions "Allow"
                (concat (secretResources <$> dataSourceConfigs)))]
  else Ok [None].

(** The pipeline of [createServiceRole]: reduce, [toPairs], map, flatten. *)
Definition statementsFor (inputs : Config) (accountId : jsval)
  : result (list (option statement)) :=
  match cfg_dataSources inputs with
  | None => Throw (TypeError "Cannot read property of undefined")
  | Some dataSources =>
      groups ← mapResult (statementsOf inputs accountId) (foldl collect [] dataSources);
      Ok (concat groups)
  end.

Definition createRole (statements : list (option statement)) (apiName : jsval) : M obj :=
  let roleName := template apiName +:+ "-role" in
  let policyName := template apiName +:+ "-policy" in
  role ← call (EvCreateRole roleName) (λ tr, iamCreateRole P tr roleName);
  policy ← call (EvCreatePolicy policyName statements)
                (λ tr, iamCreatePolicy P tr policyName statements);
  let policyArn := prop "Arn" policy in
  _ ← call (EvAttachRolePolicy roleName policyArn)
           (λ tr, iamAttachRolePolicy P tr roleName policyArn);
  _ ← sleep 10000;
  mret (<["roleArn" := prop "Arn" role]> (<["policyArn" := policyArn]> ∅)).

Definition createServiceRole (inputs : Config) : M obj :=
  accountId ← call EvGetAccountId (getAccountId P);
  statements ← lift (statementsFor inputs accountId);
  if truthyArray statements
  then createRole statements (cfg_name inputs)
  else mret ∅.

End WithHost.
End Role.

(** ** Hosts and providers to run the reconcilers on *)

Module Examples.

(** A host with two template files and a schema under [src]. *)
Definition host : Host := {|
  path_join := λ a b, a +:+ "/" +:+ b;
  fs := λ p,
    if String.eqb p "src/req.vtl" then Some "REQUEST TEMPLATE"
    else if String.eqb p "src/res.vtl" then Some "RESPONSE TEMPLATE"
    else if String.eqb p "src/schema.graphql" then Some "type Query { ok: Boolean }"
    else None;
  sha := λ text, "sha256:" +:+ text;
  Date_parse := λ _, None;
  esEndpointExec := λ _, None
|}.

(** A provider on which every request succeeds and every listing is empty. *)
Definition quiet : Provider := {|
  listFunctions := λ _ _, inr [];
  createFunction := λ _ _, inr (<["functionId" := VStr "fn-1"]> ∅);
  updateFunction := λ _ _, inr tt;
  deleteFunction := λ _ _ _, inr tt;
  listApiKeys := λ _ _, inr [];
  createApiKey := λ _ _, inr (<["id" := VStr "da2-0"]> ∅);
  updateApiKey := λ _ _, inr tt;
  deleteApiKey := λ _ _ _, inr tt;
  startSchemaCreation := λ _ _ _, inr tt;
  getSchemaCreationStatus := λ _ _, inr (VStr "SUCCESS");
  getAccountId := λ _, inr (VStr "123456789012");
  iamCreateRole := λ _ _, inr (<["Arn" := VStr "arn:aws:iam::123456789012:role/api-role"]> ∅);
  iamCreatePolicy := λ _ _ _, inr (<["Arn" := VStr "arn:aws:iam::123456789012:policy/api-policy"]> ∅);
  iamAttachRolePolicy := λ _ _ _, inr tt
|}.

(** The API keys a provider holds after the requests of a trace: a
    created key keeps the description and expiry it was created with, an
    update replaces them. Nothing else changes a key. *)
Definition keyId (n : nat) : jsval := VStr ("da2-" +:+ pretty n).

Definition applyKeyEvent (keys : list obj) (ev : event) : list obj :=
  match ev with
  | EvCreateApiKey params =>
      keys ++ [<["id" := keyId (length keys)]>
               (<["description" := prop "description" params]>
               (<["expires" := prop "expires" params]> ∅))]
  | EvUpdateApiKey params =>
      (λ k, if equals (prop "id" k) (prop "id" params)
            then merge k (<["description" := prop "description" params]>
                         (<["expires" := prop "expires" params]> ∅))
            else k) <$> keys
  | _ => keys
  end.

Definition keysAfter (tr : trace) : list obj := foldl applyKeyEvent [] tr.

(** A provider that remembers API keys and never drifts. *)
Definition keyStore : Provider := {|
  listFunctions := listFunctions quiet;
  createFunction := createFunction quiet;
  updateFunction := updateFunction quiet;
  deleteFunction := deleteFunction quiet;
  listApiKeys := λ tr _, inr (keysAfter tr);
  createApiKey := λ tr _, inr (<["id" := keyId (length (keysAfter tr))]> ∅);
  updateApiKey := updateApiKey quiet;
  deleteApiKey := deleteApiKey quiet;
  startSchemaCreation := startSchemaCreation quiet;
  getSchemaCreationStatus := getSchemaCreationStatus quiet;
  getAccountId := getAccountId quiet;
  iamCreateRole := iamCreateRole quiet;
  iamCreatePolicy := iamCreatePolicy quiet;
  iamAttachRolePolicy := iamAttachRolePolicy quiet
|}.

(** A provider whose schema creation is still processing at the first
    two status requests and has succeeded at the third. *)
Definition isStatusRequest (ev : event) : bool :=
  match ev with EvGetSchemaCreationStatus _ => true | _ => false end.

Definition statusRequests (tr : trace) : nat :=
  length (List.filter isStatusRequest tr).

Definition slowSchema : Provider := {|
  listFunctions := listFunctions quiet;
  createFunction := createFunction quiet;
  updateFunction := updateFunction quiet;
  deleteFunction := deleteFunction quiet;
  listApiKeys := listApiKeys quiet;
  createApiKey := createApiKey quiet;
  updateApiKey := updateApiKey quiet;
  deleteApiKey := deleteApiKey quiet;
  startSchemaCreation := startSchemaCreation quiet;
  getSchemaCreationStatus := λ tr _,
    inr (VStr (if bool_decide (statusRequests tr < 2)%nat then "PROCESSING" else "SUCCESS"));
  getAccountId := getAccountId quiet;
  iamCreateRole := iamCreateRole quiet;
  iamCreatePolicy := iamCreatePolicy quiet;
  iamAttachRolePolicy := iamAttachRolePolicy quiet
|}.

(** A provider on which every function is already gone. *)
Definition gone : Provider := {|
  listFunctions := listFunctions quiet;
  createFunction := createFunction quiet;
  updateFunction := updateFunction quiet;
  deleteFunction := λ _ _ _, inl "NotFoundException";
  listApiKeys := listApiKeys quiet;
  createApiKey := createApiKey quiet;
  updateApiKey := updateApiKey quiet;
  deleteApiKey := deleteApiKey quiet;
  startSchemaCreation := startSchemaCreation quiet;
  getSchemaCreationStatus := getSchemaCreationStatus quiet;
  getAccountId := getAccountId quiet;
  iamCreateRole := iamCreateRole quiet;
  iamCreatePolicy := iamCreatePolicy quiet;
  iamAttachRolePolicy := iamAttachRolePolicy quiet
|}.

(** A configuration with nothing declared. *)
Definition emptyConfig : Config := {|
  cfg_apiId := VStr "api-1";
  cfg_name := VStr "api";
  cfg_region := VStr "us-east-1";
  cfg_src := VStr "src";
  cfg_schema := VUndef;
  cfg_isApiCreator := VUndef;
  cfg_dataSources := Some [];
  cfg_functions := Missing;
  cfg_apiKeys := Missing
|}.

Definition emptyState : State := {|
  st_schemaChecksum := VUndef;
  st_functions := None;
  st_apiKeys := None
|}.

Definition withFunctions (fs : list obj) (c : Config) : Config := {|
  cfg_apiId := cfg_apiId c; cfg_name := cfg_name c; cfg_region := cfg_region c;
  cfg_src := cfg_src c; cfg_schema := cfg_schema c;
  cfg_isApiCreator := cfg_isApiCreator c; cfg_dataSources := cfg_dataSources c;
  cfg_functions := Many fs; cfg_apiKeys := cfg_apiKeys c
|}.

Definition withApiKeys (ks : list apiKeyInput) (c : Config) : Config := {|
  cfg_apiId := cfg_apiId c; cfg_name := cfg_name c; cfg_region := cfg_region c;
  cfg_src := cfg_src c; cfg_schema := cfg_schema c;
  cfg_isApiCreator := cfg_isApiCreator c; cfg_dataSources := cfg_dataSources c;
  cfg_functions := cfg_functions c; cfg_apiKeys := Many ks
|}.

Definition withSchema (s : jsval) (c : Config) : Config := {|
  cfg_apiId := cfg_apiId c; cfg_name := cfg_name c; cfg_region := cfg_region c;
  cfg_src := cfg_src c; cfg_schema := s;
  cfg_isApiCreator := cfg_isApiCreator c; cfg_dataSources := cfg_dataSources c;
  cfg_functions := cfg_functions c; cfg_apiKeys := cfg_apiKeys c
|}.

Definition withDataSources (ds : list dataSource) (c : Config) : Config := {|
  cfg_apiId := cfg_apiId c; cfg_name := cfg_name c; cfg_region := cfg_region c;
  cfg_src := cfg_src c; cfg_schema := cfg_schema c;
  cfg_isApiCreator := cfg_isApiCreator c; cfg_dataSources := Some ds;
  cfg_functions := cfg_functions c; cfg_apiKeys := cfg_apiKeys c
|}.

(** A configuration that declares the schema file, and the prior state
    of a run that uploaded its text. *)
Definition schemaConfig : Config := withSchema (VStr "schema.graphql") emptyConfig.

Definition schemaPrior : State := {|
  st_schemaChecksum := VStr "sha256:type Query { ok: Boolean }";
  st_functions := None;
  st_apiKeys := None
|}.

(** A function declared with distinct request and response files. *)
Definition f1 : obj :=
  <["name" := VStr "f1"]> (<["dataSource" := VStr "A"]>
  (<["request" := VStr "req.vtl"]> (<["response" := VStr "res.vtl"]> ∅))).

(** The same function with its templates resolved. *)
Definition f1Resolved : obj :=
  <["requestMappingTemplate" := VStr "REQUEST TEMPLATE"]>
  (<["responseMappingTemplate" := VStr "REQUEST TEMPLATE"]>
  (<["dataSourceName" := VStr "A"]> f1)).



(** The record the prior state keeps of that function, and a prior
    state holding it alone. *)
Definition f1Recorded : obj :=
  <["name" := VStr "f1"]> (<["dataSource" := VStr "A"]>
  (<["functionId" := VStr "fn-1"]> ∅)).

Definition f1Prior : State := {|
  st_schemaChecksum := VUndef;
  st_functions := Some [f1Recorded];
  st_apiKeys := None
|}.

(** A Lambda data source with a role of its own. *)
Definition ownRole : dataSource := {|
  ds_type := VStr "AWS_LAMBDA";
  ds_serviceRoleArn := VStr "arn:aws:iam::123456789012:role/own";
  ds_config := <["lambdaFunctionArn" := VStr "arn:aws:lambda:us-east-1:123456789012:function:f"]> ∅
|}.

(** An API key declared without a name. *)
Definition unnamedKey : obj := <["description" := VStr "d"]> ∅.

Definition unnamedKeyConfig : Config := withApiKeys [KeyObject unnamedKey] emptyConfig.

(** An API key whose expiry is declared in milliseconds. *)
Definition keyInMillis : obj :=
  <["name" := VStr "k"]> (<["expires" := VNum 1700000000000]> ∅).

Definition millisConfig : Config := withApiKeys [KeyObject keyInMillis] emptyConfig.

(** What the first run on [millisConfig] requests, returns and persists. *)
Definition firstRun : trace :=
  [EvListApiKeys (VStr "api-1");
   EvCreateApiKey (<["apiId" := VStr "api-1"]> (<["description" := VUndef]>
                   (<["expires" := VNum 1700000000]> ∅)))].

Definition keyPersisted : obj := <["name" := VStr "k"]> (<["id" := VStr "da2-0"]> ∅).

Definition millisState : State := {|
  st_schemaChecksum := VUndef;
  st_functions := None;
  st_apiKeys := Some [keyPersisted]
|}.

(** A configuration whose only data source has a role of its own. *)
Definition ownRoleConfig : Config := withDataSources [ownRole] emptyConfig.

End Examples.

(** ** What the properties speak of *)

(** Two items of the list share their projection onto [keys]. *)
Definition shareKey (keys : list string) (items : list obj) : Prop :=
  ∃ i j x y, i ≠ j ∧ items !! i = Some x ∧ items !! j = Some y
             ∧ pick keys x = pick keys y.

(** The identifiers the prior state records for the obsolete functions. *)
Definition deletedIds (config : Config) (state : State) : list jsval :=
  (λ func, prop "functionId" (default ∅ (Functions.stateFunction state func)))
    <$> Functions.obsoleteFunctions config state.

(** An answer to a delete that the reconciler takes for a success. *)
Definition swallowed (answer : string + unit) : Prop :=
  answer = inr tt ∨ answer = inl "NotFoundException".

(** The text of the schema named [schema] under the source root [src]. *)
Definition schemaText (H : Host) (src schema : string) : string :=
  readIfFile H (path_join H src schema).

(** The trace after [k] status requests that each found the creation
    unfinished and were each followed by a wait of one second. *)
Definition pollTrace (tr : trace) (apiId : jsval) (k : nat) : trace :=
  tr ++ concat (replicate k [EvGetSchemaCreationStatus apiId; EvSleep 1000]).

(** The error is a rejection by a service. *)
Definition serviceError (e : error) : Prop := ∃ code, e = ServiceError code.

(** * Properties *)

Import Functions.

(** ** Objects *)

Lemma prop_merge_right (k : string) (v : jsval) (l r : obj) :
  r !! k = Some v → prop k (merge l r) = v.
Proof.
  intros Hr. unfold prop, merge.
  by rewrite (lookup_union_Some_l r l k v Hr).
Qed.


Lemma equals_true (a b : jsval) : equals a b = true ↔ a = b.
Proof. unfold equals. apply bool_decide_eq_true. Qed.

Lemma equals_false (a b : jsval) : equals a b = false ↔ a ≠ b.
Proof. unfold equals. apply bool_decide_eq_false. Qed.



(** ** Duplicates *)

Lemma hasDuplicates_false {A} `{EqDecision A} (l : list A) :
  hasDuplicates l = false ↔ NoDup l.
Proof.
  induction l as [|x l IH]; simpl.
  - split; [constructor|done].
  - rewrite orb_false_iff, bool_decide_eq_false, IH, NoDup_cons. done.
Qed.

Lemma hasDuplicates_true {A B} `{EqDecision B} (f : A → B) (l : list A) :
  hasDuplicates (f <$> l) = true ↔
  ∃ i j x y, i ≠ j ∧ l !! i = Some x ∧ l !! j = Some y ∧ f x = f y.
Proof.
  split.
  - induction l as [|a l IH]; simpl; [done|].
    intros Hd. apply orb_true_iff in Hd as [Hhead|Htail].
    + apply bool_decide_eq_true, list_elem_of_fmap in Hhead as (y & Hxy & Hy).
      apply list_elem_of_lookup in Hy as [j Hj].
      exists 0%nat, (S j), a, y. by repeat split.
    + destruct (IH Htail) as (i & j & x & y & Hne & Hi & Hj & Hf).
      exists (S i), (S j), x, y. repeat split; try done. congruence.
  - intros (i & j & x & y & Hne & Hi & Hj & Hf).
    apply not_false_iff_true. rewrite hasDuplicates_false, NoDup_alt.
    intros Hnd. apply Hne, (Hnd i j (f x)); rewrite list_lookup_fmap.
    + by rewrite Hi.
    + rewrite Hj. simpl. by rewrite Hf.
Qed.

(** ** The promise monad *)

Ltac unfold_M :=
  unfold mbind, M_bind, mret, M_ret, bind, ret, lift, throw, pending, call,
    try_catch, sleep in *.

Lemma promise_all_errors {A} (Q : error → Prop) (ps : list (M A)) :
  (∀ p tr e, p ∈ ps → (p tr).1 = Throw e → Q e) →
  ∀ tr e, (promise_all ps tr).1 = Throw e → Q e.
Proof.
  induction ps as [|p ps IH]; intros Hps tr e; simpl; [done|].
  destruct (p tr) as [r tr1] eqn:Ep.
  destruct (promise_all ps tr1) as [rs tr2] eqn:Eps. simpl.
  assert (Hrs : ∀ e', rs = Throw e' → Q e').
  { intros e' ->. apply (IH (λ p' tr' e'' Hin, Hps p' tr' e'' (list_elem_of_further _ _ _ Hin)) tr1).
    by rewrite Eps. }
  assert (Hr : ∀ e', r = Throw e' → Q e').
  { intros e' ->. apply (Hps p tr); [left|]. by rewrite Ep. }
  destruct r as [a|e1|]; [destruct rs as [l|e2|]|..]; intros He; simplify_eq; eauto.
Qed.

Lemma mapResult_errors {A B} (Q : error → Prop) (f : A → result B) (l : list A) :
  (∀ x e, x ∈ l → f x = Throw e → Q e) →
  ∀ e, mapResult f l = Throw e → Q e.
Proof.
  induction l as [|x l IH]; intros Hf e; simpl; [done|].
  destruct (f x) as [y|e1|] eqn:Ex; [|intros; simplify_eq; eapply Hf; [left|done]|done].
  destruct (mapResult f l) as [ys|e2|]; intros He; simplify_eq.
  eapply IH; [|done]. intros x' e' Hin. apply Hf. by right.
Qed.

Lemma deploy_errors (P : Provider) config func tr e :
  (deploy P config func tr).1 = Throw e → serviceError e.
Proof.
  unfold deploy.
  destruct (equals (prop "mode" func) (VStr "create")).
  { unfold_M. destruct (createFunction P tr _) as [code|a]; simpl; intros He; simplify_eq.
    by exists code. }
  destruct (equals (prop "mode" func) (VStr "update")); [|done].
  unfold_M. destruct (updateFunction P tr _) as [code|a]; simpl; intros He; simplify_eq.
  by exists code.
Qed.

Lemma withTemplates_errors (H : Host) config func e :
  withTemplates H config func = Throw e → ∃ msg, e = TypeError msg.
Proof.
  unfold withTemplates, pathJoin.
  destruct (cfg_src config), (prop "request" func); simpl; intros He; simplify_eq; eauto.
Qed.

(** C9 — the duplicate check of [createOrUpdateFunctions]: the check, and
    with it the reconciler, fails with a ConfigurationError exactly when
    two declared functions have the same projection on (name,
    dataSource); and the failing reconciler has issued no request. *)
Theorem duplicate_functions_fail_first (H : Host) (P : Provider) (config : Config)
    (tr : trace) :
  (shareKey naturalKey (defaultToAnArray (cfg_functions config))
   ↔ ∃ msg, checkForDuplicates naturalKey (defaultToAnArray (cfg_functions config))
            = Throw (ConfigurationError msg))
  ∧ (shareKey naturalKey (defaultToAnArray (cfg_functions config))
     ↔ ∃ msg, (createOrUpdateFunctions H P config tr).1 = Throw (ConfigurationError msg))
  ∧ (shareKey naturalKey (defaultToAnArray (cfg_functions config))
     → (createOrUpdateFunctions H P config tr).2 = tr).
Proof.
  set (items := defaultToAnArray (cfg_functions config)).
  set (shared := shareKey naturalKey items).
  assert (Hcheck : shared ↔ hasDuplicates (pick naturalKey <$> items) = true).
  { symmetry. apply hasDuplicates_true. }
  unfold createOrUpdateFunctions, checkForDuplicates. fold items.
  destruct (hasDuplicates (pick naturalKey <$> items)) eqn:Ed.
  - unfold_M. simpl. repeat split; intros; try (by apply Hcheck); eauto.
  - assert (Hno : ¬ shared) by (rewrite Hcheck; done).
    split; [|split]; [split; [done|by intros [? ?]] | | done].
    split; [done|]. intros [msg Hmsg]. exfalso.
    unfold_M. simpl in Hmsg.
    destruct (listFunctions P tr (cfg_apiId config)) as [code|deployed]; [done|].
    destruct (mapResult (withTemplates H config) items) as [resolved|e|] eqn:Er.
    + apply (promise_all_errors serviceError) in Hmsg as [? ?]; [done|].
      intros p tr' e' (func & -> & _)%list_elem_of_fmap. apply deploy_errors.
    + simpl in Hmsg. simplify_eq.
      apply (mapResult_errors (λ e, ∃ msg, e = TypeError msg)) in Er as [? ?]; [done|].
      intros x e' _. apply withTemplates_errors.
    + done.
Qed.

(** ** Classification of functions *)


Lemma find_None_iff {A} (f : A → bool) (l : list A) :
  find f l = None ↔ ∀ x, x ∈ l → f x = false.
Proof.
  unfold find. split.
  - intros Hn x Hx. apply list_elem_of_In in Hx. by apply (find_none f l Hn).
  - induction l as [|x l IH]; intros Hall; simpl; [done|].
    rewrite (Hall x) by left. apply IH. intros y Hy. apply Hall. by right.
Qed.

Lemma find_Some_first {A} (f : A → bool) (l : list A) (x : A) :
  find f l = Some x →
  ∃ l1 l2, l = l1 ++ x :: l2 ∧ f x = true ∧ ∀ y, y ∈ l1 → f y = false.
Proof.
  unfold find. induction l as [|a l IH]; simpl; [done|].
  destruct (f a) eqn:Ea.
  - intros [= ->]. exists [], l. repeat split; [done|]. by intros y Hy%elem_of_nil.
  - intros Hx. destruct (IH Hx) as (l1 & l2 & -> & Hfx & Hl1).
    exists (a :: l1), l2. repeat split; [done|].
    intros y [->|Hy]%elem_of_cons; [done|by apply Hl1].
Qed.




(** ** Removal of obsolete functions *)

Lemma differenceFrom_spec {A} `{EqDecision A} (first seen : list A) :
  NoDup (differenceFrom seen first)
  ∧ ∀ x, x ∈ differenceFrom seen first ↔ x ∈ first ∧ x ∉ seen.
Proof.
  revert seen. induction first as [|a first IH]; intros seen; simpl.
  - split; [constructor|]. intros x. split; [by intros ?%elem_of_nil|].
    by intros [?%elem_of_nil _].
  - case_bool_decide as Ha.
    + destruct (IH seen) as [Hnd Hin]. split; [done|].
      intros x. rewrite Hin, elem_of_cons. split; [tauto|].
      intros [[->|Hx] Hs]; tauto.
    + destruct (IH (a :: seen)) as [Hnd Hin]. split.
      * constructor; [|done]. rewrite Hin, elem_of_cons. tauto.
      * intros x. rewrite elem_of_cons, Hin, !elem_of_cons.
        destruct (decide (x = a)) as [->|Hne]; tauto.
Qed.

Lemma prop_pick (keys : list string) (k : string) (o : obj) :
  k ∈ keys → prop k (pick keys o) = prop k o.
Proof.
  intros Hk. unfold prop, pick. f_equal.
  apply option_eq. intros v. rewrite map_lookup_filter_Some. simpl. tauto.
Qed.

Lemma find_is_Some {A} (f : A → bool) (l : list A) (x : A) :
  x ∈ l → f x = true → ∃ y, find f l = Some y.
Proof.
  intros Hx Hf. destruct (find f l) as [y|] eqn:E; [by exists y|].
  rewrite find_None_iff in E. by rewrite (E x Hx) in Hf.
Qed.

Lemma obsolete_in_state config state p :
  p ∈ obsoleteFunctions config state →
  ∃ s, stateFunction state p = Some s
       ∧ s ∈ default [] (st_functions state)
       ∧ prop "name" s = prop "name" p
       ∧ prop "dataSource" s = prop "dataSource" p.
Proof.
  unfold obsoleteFunctions, difference, stateFunction.
  intros [Hp _]%differenceFrom_spec.
  destruct (st_functions state) as [fs|]; simpl in *; [|by apply elem_of_nil in Hp].
  apply list_elem_of_fmap in Hp as (s0 & -> & Hs0).
  destruct (find_is_Some
              (λ s, equals (prop "name" s) (prop "name" (pick naturalKey s0))
                    && equals (prop "dataSource" s) (prop "dataSource" (pick naturalKey s0)))
              fs s0 Hs0) as [s Hs].
  { apply andb_true_iff. split; apply equals_true; symmetry; apply prop_pick;
      unfold naturalKey; set_solver. }
  exists s. split; [done|].
  apply find_Some_first in Hs as (l1 & l2 & -> & Hkey & _).
  apply andb_true_iff in Hkey as [E1%equals_true E2%equals_true].
  split; [|done]. simpl. apply elem_of_app. right. left.
Qed.

Lemma remove_run (P : Provider) config state p s tr :
  stateFunction state p = Some s →
  remove P config state p tr
  = (match deleteFunction P tr (cfg_apiId config) (prop "functionId" s) with
     | inr _ => Ok tt
     | inl code => if String.eqb code "NotFoundException" then Ok tt
                   else Throw (ServiceError code)
     end,
     tr ++ [EvDeleteFunction (cfg_apiId config) (prop "functionId" s)]).
Proof.
  intros Hs. unfold remove. rewrite Hs. unfold_M.
  destruct (deleteFunction P tr _ _) as [code|[]]; [|done].
  unfold equals. simpl.
  destruct (String.eqb_spec code "NotFoundException") as [->|Hne].
  - by rewrite bool_decide_eq_true_2.
  - rewrite bool_decide_eq_false_2; [done|congruence].
Qed.

Lemma removeAll_run (P : Provider) config state (funcs : list obj) (ids : list jsval) :
  Forall2 (λ p id, ∃ s, stateFunction state p = Some s ∧ id = prop "functionId" s)
          funcs ids →
  ∀ tr,
    (promise_all (remove P config state <$> funcs) tr).2
    = tr ++ (EvDeleteFunction (cfg_apiId config) <$> ids)
    ∧ ((∀ i id, ids !! i = Some id →
          swallowed (deleteFunction P
                       (tr ++ (EvDeleteFunction (cfg_apiId config) <$> take i ids))
                       (cfg_apiId config) id)) →
       ∃ l, (promise_all (remove P config state <$> funcs) tr).1 = Ok l)
    ∧ (∀ i id code, ids !! i = Some id →
          deleteFunction P (tr ++ (EvDeleteFunction (cfg_apiId config) <$> take i ids))
                         (cfg_apiId config) id = inl code →
          code ≠ "NotFoundException" →
          ∃ code', (promise_all (remove P config state <$> funcs) tr).1
                   = Throw (ServiceError code')
                   ∧ code' ≠ "NotFoundException").
Proof.
  induction 1 as [|p id funcs ids (s & Hs & ->) _ IH]; intros tr.
  { simpl. rewrite app_nil_r. repeat split; [by eexists|].
    intros i id code Hi. by rewrite lookup_nil in Hi. }
  cbn [fmap list_fmap promise_all]. rewrite (remove_run P config state p s tr Hs).
  set (ev := EvDeleteFunction (cfg_apiId config) (prop "functionId" s)).
  destruct (IH (tr ++ [ev])) as (Htr & Hok & Hthrow).
  destruct (promise_all (remove P config state <$> funcs) (tr ++ [ev])) as [rs tr2] eqn:Erest.
  simpl in Htr, Hok, Hthrow. subst tr2.
  assert (Hshift : ∀ i, (tr ++ [ev]) ++ (EvDeleteFunction (cfg_apiId config) <$> take i ids)
                        = tr ++ (EvDeleteFunction (cfg_apiId config)
                                   <$> take (S i) (prop "functionId" s :: ids))).
  { intros i. by rewrite <- app_assoc. }
  split; [|split].
  - simpl. by rewrite <- app_assoc.
  - intros Hall.
    pose proof (Hall 0%nat (prop "functionId" s) eq_refl) as Hhead.
    simpl in Hhead. rewrite app_nil_r in Hhead.
    destruct Hok as [l Hl].
    { intros i id Hi. rewrite Hshift. by apply (Hall (S i)). }
    subst rs. destruct Hhead as [-> | ->]; simpl; by eexists.
  - intros i id code Hi Hans Hcode.
    destruct (deleteFunction P tr (cfg_apiId config) (prop "functionId" s))
      as [code0|[]] eqn:Ehead.
    + destruct (String.eqb_spec code0 "NotFoundException") as [->|Hne0].
      * destruct i as [|i].
        { simpl in Hi, Hans. rewrite app_nil_r in Hans. simplify_eq; congruence. }
        destruct (Hthrow i id code Hi) as (code' & -> & Hne'); [by rewrite Hshift|done|].
        simpl. by exists code'.
      * simpl. by exists code0.
    + destruct i as [|i].
      { simpl in Hi, Hans. rewrite app_nil_r in Hans. simplify_eq; congruence. }
      destruct (Hthrow i id code Hi) as (code' & -> & Hne'); [by rewrite Hshift|done|].
      simpl. by exists code'.
Qed.

Lemma obsolete_ids config state :
  Forall2 (λ p id, ∃ s, stateFunction state p = Some s ∧ id = prop "functionId" s)
          (obsoleteFunctions config state) (deletedIds config state).
Proof.
  unfold deletedIds. apply Forall2_fmap_r, Forall_Forall2_diag, Forall_forall.
  intros p Hp. destruct (obsolete_in_state config state p Hp) as (s & Hs & _).
  exists s. by rewrite Hs.
Qed.

Lemma removeObsoleteFunctions_run (P : Provider) config state tr :
  (removeObsoleteFunctions P config state tr).2
  = (promise_all (remove P config state <$> obsoleteFunctions config state) tr).2
  ∧ ((removeObsoleteFunctions P config state tr).1
     = match (promise_all (remove P config state <$> obsoleteFunctions config state) tr).1 with
       | Ok _ => Ok tt
       | Throw e => Throw e
       | Pending => Pending
       end).
Proof.
  unfold removeObsoleteFunctions. unfold_M.
  by destruct (promise_all _ tr) as [[l|e|] tr'].
Qed.

(** C8 — [removeObsoleteFunctions]: the obsolete functions are the
    projections on (name, dataSource) of the prior state that the
    configuration lacks, each once; each is found in the prior state and
    one delete is issued for it, with the identifier recorded there,
    whatever the provider answers; a prior state of one function and no
    declared function give exactly one delete; the operation succeeds
    when every delete succeeds or is rejected as NotFoundException, and a
    delete rejected with another code makes it fail with such a code. *)
Theorem obsolete_functions_removed (P : Provider) (config : Config) (state : State)
    (tr : trace) :
  NoDup (obsoleteFunctions config state)
  ∧ (∀ p, p ∈ obsoleteFunctions config state
          ↔ p ∈ pick naturalKey <$> default [] (st_functions state)
            ∧ p ∉ pick naturalKey <$> defaultToAnArray (cfg_functions config))
  ∧ (∀ p, p ∈ obsoleteFunctions config state →
          ∃ s, stateFunction state p = Some s
               ∧ s ∈ default [] (st_functions state)
               ∧ prop "name" s = prop "name" p
               ∧ prop "dataSource" s = prop "dataSource" p)
  ∧ (removeObsoleteFunctions P config state tr).2
    = tr ++ (EvDeleteFunction (cfg_apiId config) <$> deletedIds config state)
  ∧ (∀ s, defaultToAnArray (cfg_functions config) = [] →
          st_functions state = Some [s] →
          (removeObsoleteFunctions P config state tr).2
          = tr ++ [EvDeleteFunction (cfg_apiId config) (prop "functionId" s)])
  ∧ ((∀ i id, deletedIds config state !! i = Some id →
        swallowed (deleteFunction P
                     (tr ++ (EvDeleteFunction (cfg_apiId config)
                               <$> take i (deletedIds config state)))
                     (cfg_apiId config) id)) →
     (removeObsoleteFunctions P config state tr).1 = Ok tt)
  ∧ (∀ i id code, deletedIds config state !! i = Some id →
        deleteFunction P
          (tr ++ (EvDeleteFunction (cfg_apiId config) <$> take i (deletedIds config state)))
          (cfg_apiId config) id = inl code →
        code ≠ "NotFoundException" →
        ∃ code', (removeObsoleteFunctions P config state tr).1 = Throw (ServiceError code')
                 ∧ code' ≠ "NotFoundException").
Proof.
  destruct (removeObsoleteFunctions_run P config state tr) as [Htrace Hresult].
  destruct (removeAll_run P config state _ _ (obsolete_ids config state) tr)
    as (Hdeletes & Hok & Hthrow).
  assert (Hall : (removeObsoleteFunctions P config state tr).2
                 = tr ++ (EvDeleteFunction (cfg_apiId config) <$> deletedIds config state))
    by (by rewrite Htrace).
  split; [apply differenceFrom_spec|].
  split.
  { intros p. unfold obsoleteFunctions, difference.
    rewrite (proj2 (differenceFrom_spec _ _)).
    by destruct (st_functions state). }
  split; [apply obsolete_in_state|].
  split; [done|].
  split.
  { intros s Hnone Hone. rewrite Hall. f_equal.
    unfold deletedIds, obsoleteFunctions, stateFunction. rewrite Hnone, Hone. simpl.
    rewrite !prop_pick by (unfold naturalKey; set_solver).
    unfold equals. by rewrite !bool_decide_eq_true_2. }
  split.
  - intros Hsw. rewrite Hresult. by destruct (Hok Hsw) as [l ->].
  - intros i id code Hi Hans Hcode. rewrite Hresult.
    destruct (Hthrow i id code Hi Hans Hcode) as (code' & -> & Hne). by exists code'.
Qed.

Lemma obsolete_functions_removed_witness :
  (removeObsoleteFunctions Examples.gone Examples.emptyConfig Examples.f1Prior []).2
  = [EvDeleteFunction (VStr "api-1") (VStr "fn-1")]
  ∧ (removeObsoleteFunctions Examples.gone Examples.emptyConfig Examples.f1Prior []).1
    = Ok tt.
Proof.
  pose proof (obsolete_functions_removed Examples.gone Examples.emptyConfig
                Examples.f1Prior []) as (_ & _ & _ & _ & Hone & Hok & _).
  split.
  - apply (Hone Examples.f1Recorded); reflexivity.
  - apply Hok. intros i id Hi. right. reflexivity.
Defined.

(** ** The schema *)

Import Schema.

Lemma pollTrace_S tr apiId k :
  pollTrace (tr ++ [EvGetSchemaCreationStatus apiId; EvSleep 1000]) apiId k
  = pollTrace tr apiId (S k).
Proof. unfold pollTrace. simpl. by rewrite <- app_assoc. Qed.

Lemma includes_true v l : includes v l = true ↔ v ∈ l.
Proof. unfold includes. apply bool_decide_eq_true. Qed.

Lemma includes_false v l : includes v l = false ↔ v ∉ l.
Proof. unfold includes. apply bool_decide_eq_false. Qed.

Lemma waitForSchema_step (P : Provider) fuel config tr :
  waitForSchema P (S fuel) config tr
  = match getSchemaCreationStatus P tr (cfg_apiId config) with
    | inl code => (Throw (ServiceError code), tr ++ [EvGetSchemaCreationStatus (cfg_apiId config)])
    | inr status =>
        if includes status terminal
        then (Ok tt, tr ++ [EvGetSchemaCreationStatus (cfg_apiId config)])
        else waitForSchema P fuel config
               (tr ++ [EvGetSchemaCreationStatus (cfg_apiId config); EvSleep 1000])
    end.
Proof.
  simpl. unfold_M.
  destruct (getSchemaCreationStatus P tr (cfg_apiId config)) as [code|status]; [done|].
  destruct (includes status terminal); [done|].
  by rewrite <- app_assoc.
Qed.

Lemma waitForSchema_waiting (P : Provider) config n :
  ∀ tr,
    (∀ k, (k < n)%nat →
          ∃ s, getSchemaCreationStatus P (pollTrace tr (cfg_apiId config) k) (cfg_apiId config)
               = inr s ∧ s ∉ terminal) →
    waitForSchema P n config tr = (Pending, pollTrace tr (cfg_apiId config) n).
Proof.
  induction n as [|n IH]; intros tr Hbusy.
  - unfold pollTrace. simpl. by rewrite app_nil_r.
  - rewrite waitForSchema_step.
    destruct (Hbusy 0%nat ltac:(lia)) as (s & Hs & Hnot).
    unfold pollTrace in Hs. simpl in Hs. rewrite app_nil_r in Hs. rewrite Hs.
    apply includes_false in Hnot. rewrite Hnot.
    rewrite IH; [by rewrite pollTrace_S|].
    intros k Hk. rewrite pollTrace_S. apply Hbusy. lia.
Qed.

Lemma waitForSchema_settled (P : Provider) config n :
  ∀ tr s fuel,
    (∀ k, (k < n)%nat →
          ∃ s, getSchemaCreationStatus P (pollTrace tr (cfg_apiId config) k) (cfg_apiId config)
               = inr s ∧ s ∉ terminal) →
    getSchemaCreationStatus P (pollTrace tr (cfg_apiId config) n) (cfg_apiId config) = inr s →
    s ∈ terminal →
    (n < fuel)%nat →
    waitForSchema P fuel config tr
    = (Ok tt, pollTrace tr (cfg_apiId config) n ++ [EvGetSchemaCreationStatus (cfg_apiId config)]).
Proof.
  induction n as [|n IH]; intros tr s fuel Hbusy Hlast Hterm Hfuel;
    (destruct fuel as [|fuel]; [lia|]); rewrite waitForSchema_step.
  - unfold pollTrace in *. simpl in *. rewrite app_nil_r in *. rewrite Hlast.
    apply includes_true in Hterm. by rewrite Hterm.
  - destruct (Hbusy 0%nat ltac:(lia)) as (s0 & Hs0 & Hnot).
    unfold pollTrace in Hs0. simpl in Hs0. rewrite app_nil_r in Hs0. rewrite Hs0.
    apply includes_false in Hnot. rewrite Hnot.
    rewrite (IH _ s); [by rewrite pollTrace_S| |by rewrite pollTrace_S|done|lia].
    intros k Hk. rewrite pollTrace_S. apply Hbusy. lia.
Qed.

(** C7 — [createSchema] with a schema to read: when the checksum of its
    text is the one of the prior state, nothing is requested and that
    checksum is returned; when it is not, and the creation is accepted,
    the creation is started and its status requested every second: after
    any number of requests that found it unfinished the loop is still
    waiting, and it returns the new checksum at the first status among
    FAILED, SUCCESS and NOT_APPLICABLE. *)
Theorem schema_converges (H : Host) (P : Provider) (config : Config) (state : State)
    (tr : trace) (src schema : string) :
  schemaName config = Some (VStr schema) →
  cfg_src config = VStr src →
  (st_schemaChecksum state = VStr (checksum H (schemaText H src schema)) →
   ∀ fuel, createSchema H P fuel config state tr = (Ok (st_schemaChecksum state), tr))
  ∧ (st_schemaChecksum state ≠ VStr (checksum H (schemaText H src schema)) →
     startSchemaCreation P tr (cfg_apiId config) (schemaText H src schema) = inr tt →
     ∀ n,
       (∀ k, (k < n)%nat →
          ∃ s, getSchemaCreationStatus P
                 (pollTrace (tr ++ [EvStartSchemaCreation (cfg_apiId config)
                                      (schemaText H src schema)])
                            (cfg_apiId config) k)
                 (cfg_apiId config) = inr s
               ∧ s ∉ terminal) →
       createSchema H P n config state tr
       = (Pending,
          pollTrace (tr ++ [EvStartSchemaCreation (cfg_apiId config)
                              (schemaText H src schema)])
                    (cfg_apiId config) n)
       ∧ ∀ s fuel,
           getSchemaCreationStatus P
             (pollTrace (tr ++ [EvStartSchemaCreation (cfg_apiId config)
                                  (schemaText H src schema)])
                        (cfg_apiId config) n)
             (cfg_apiId config) = inr s →
           s ∈ terminal →
           (n < fuel)%nat →
           createSchema H P fuel config state tr
           = (Ok (VStr (checksum H (schemaText H src schema))),
              pollTrace (tr ++ [EvStartSchemaCreation (cfg_apiId config)
                                  (schemaText H src schema)])
                        (cfg_apiId config) n
              ++ [EvGetSchemaCreationStatus (cfg_apiId config)])).
Proof.
  intros Hname Hsrc. unfold createSchema. rewrite Hname, Hsrc. simpl.
  unfold schemaText. split.
  - intros Hsame fuel. unfold_M. simpl.
    rewrite Hsame. unfold equals. by rewrite bool_decide_eq_true_2.
  - intros Hdiff Hstart n Hbusy.
    assert (Hneq : equals (VStr (checksum H (readIfFile H (path_join H src schema))))
                          (st_schemaChecksum state) = false).
    { apply equals_false. intros Heq. by apply Hdiff. }
    split.
    + unfold_M. simpl. rewrite Hneq. simpl. rewrite Hstart.
      by rewrite (waitForSchema_waiting P config n _ Hbusy).
    + intros s fuel Hlast Hterm Hfuel. unfold_M. simpl. rewrite Hneq. simpl.
      rewrite Hstart.
      by rewrite (waitForSchema_settled P config n _ s fuel Hbusy Hlast Hterm Hfuel).
Qed.

Lemma schema_converges_witness :
  createSchema Examples.host Examples.slowSchema 0 Examples.schemaConfig
    Examples.schemaPrior []
  = (Ok (VStr "sha256:type Query { ok: Boolean }"), [])
  ∧ createSchema Examples.host Examples.slowSchema 2 Examples.schemaConfig
      Examples.emptyState []
    = (Pending,
       [EvStartSchemaCreation (VStr "api-1") "type Query { ok: Boolean }";
        EvGetSchemaCreationStatus (VStr "api-1"); EvSleep 1000;
        EvGetSchemaCreationStatus (VStr "api-1"); EvSleep 1000])
  ∧ createSchema Examples.host Examples.slowSchema 3 Examples.schemaConfig
      Examples.emptyState []
    = (Ok (VStr "sha256:type Query { ok: Boolean }"),
       [EvStartSchemaCreation (VStr "api-1") "type Query { ok: Boolean }";
        EvGetSchemaCreationStatus (VStr "api-1"); EvSleep 1000;
        EvGetSchemaCreationStatus (VStr "api-1"); EvSleep 1000;
        EvGetSchemaCreationStatus (VStr "api-1")]).
Proof.
  assert (Hbusy : ∀ k, (k < 2)%nat →
            ∃ s, getSchemaCreationStatus Examples.slowSchema
                   (pollTrace ([] ++ [EvStartSchemaCreation (cfg_apiId Examples.schemaConfig)
                                        (schemaText Examples.host "src" "schema.graphql")])
                              (cfg_apiId Examples.schemaConfig) k)
                   (cfg_apiId Examples.schemaConfig) = inr s
                 ∧ s ∉ terminal).
  { intros k Hk. exists (VStr "PROCESSING").
    destruct k as [|[|k]]; [| |lia]; (split; [reflexivity|]);
      apply includes_false; reflexivity. }
  split; [|split].
  - apply (proj1 (schema_converges Examples.host Examples.slowSchema Examples.schemaConfig
                    Examples.schemaPrior [] "src" "schema.graphql" eq_refl eq_refl)).
    reflexivity.
  - apply (proj2 (schema_converges Examples.host Examples.slowSchema Examples.schemaConfig
                    Examples.emptyState [] "src" "schema.graphql" eq_refl eq_refl)
             ltac:(discriminate) eq_refl 2%nat Hbusy).
  - apply (proj2 (proj2 (schema_converges Examples.host Examples.slowSchema
                           Examples.schemaConfig Examples.emptyState [] "src"
                           "schema.graphql" eq_refl eq_refl)
                    ltac:(discriminate) eq_refl 2%nat Hbusy) (VStr "SUCCESS") 3%nat).
    + reflexivity.
    + apply includes_true. reflexivity.
    + lia.
Defined.

(** C3 (as it holds) — [createSchema] with no schema declared by a
    caller who is not the creator of the API: nothing is requested and
    the value returned is [undefined], whatever checksum the prior state
    holds. *)
Theorem schema_skipped (H : Host) (P : Provider) (fuel : nat) (config : Config)
    (state : State) (tr : trace) :
  isNil (cfg_schema config) = true →
  not (cfg_isApiCreator config) = true →
  createSchema H P fuel config state tr = (Ok VUndef, tr).
Proof.
  intros Hnil Hguest. unfold createSchema, schemaName. by rewrite Hnil, Hguest.
Qed.

Lemma schema_skipped_witness :
  createSchema Examples.host Examples.quiet 1 Examples.emptyConfig Examples.schemaPrior []
  = (Ok VUndef, []).
Proof.
  apply schema_skipped; reflexivity.
Defined.

(** C3 (as stated) fails: with no schema declared, a caller who is not
    the creator and a prior checksum, the value returned is not the prior
    checksum. *)
Lemma schema_skipped_loses_checksum :
  ¬ (isNil (cfg_schema Examples.emptyConfig) = true →
     not (cfg_isApiCreator Examples.emptyConfig) = true →
     createSchema Examples.host Examples.quiet 1 Examples.emptyConfig
       Examples.schemaPrior []
     = (Ok (st_schemaChecksum Examples.schemaPrior), [])).
Proof.
  intros Hclaim. specialize (Hclaim eq_refl eq_refl). discriminate Hclaim.
Qed.

(** ** API keys *)

Import ApiKeys.







Lemma toDeploy_result (stateKeys : list obj) (apiKey : obj) :
  (isNil (prop "name" apiKey) = true →
   toDeploy stateKeys apiKey = Throw (ConfigurationError "required field missing"))
  ∧ (∀ e, toDeploy stateKeys apiKey = Throw e →
          e = ConfigurationError "required field missing")
  ∧ toDeploy stateKeys apiKey ≠ Pending.
Proof.
  unfold toDeploy, checkForRequired, mbind, result_bind. simpl.
  destruct (isNil (prop "name" apiKey)); simpl.
  - split; [done|]. split; [|done]. intros e He. by simplify_eq.
  - split; [done|].
    destruct (find _ stateKeys) as [stateApiKey|]; [destruct (changed _ _)|]; by split.
Qed.

Lemma mapResult_toDeploy_unnamed (stateKeys : list obj) (keys : list obj) :
  (∃ k, k ∈ keys ∧ isNil (prop "name" k) = true) →
  mapResult (toDeploy stateKeys) keys = Throw (ConfigurationError "required field missing").
Proof.
  induction keys as [|a keys IH]; intros (k & Hk & Hnil).
  { by apply elem_of_nil in Hk. }
  simpl. destruct (toDeploy_result stateKeys a) as (Hthrow & Honly & Hrun).
  destruct (toDeploy stateKeys a) as [y|e|] eqn:Ea; [|by rewrite (Honly e)|done].
  rewrite IH; [done|].
  apply elem_of_cons in Hk as [->|Hk]; [|by exists k].
  specialize (Hthrow Hnil). discriminate Hthrow.
Qed.

(** C10 (as it holds) — a declared API key without a name: once the
    deployed keys are listed, [createOrUpdateApiKeys] fails with a
    ConfigurationError, the listing being the only request issued: no key
    is created or updated. *)
Theorem unnamed_key_rejected (H : Host) (P : Provider) (config : Config) (state : State)
    (tr : trace) (deployed : list obj) :
  (∃ k, k ∈ formatInputApiKeys (cfg_apiKeys config) ∧ isNil (prop "name" k) = true) →
  listApiKeys P tr (cfg_apiId config) = inr deployed →
  ∃ msg, createOrUpdateApiKeys H P config state tr
         = (Throw (ConfigurationError msg), tr ++ [EvListApiKeys (cfg_apiId config)]).
Proof.
  intros Hunnamed Hlist. exists "required field missing".
  unfold createOrUpdateApiKeys. unfold_M. rewrite Hlist.
  by rewrite (mapResult_toDeploy_unnamed _ _ Hunnamed).
Qed.

Lemma unnamed_key_rejected_witness :
  ∃ msg, createOrUpdateApiKeys Examples.host Examples.quiet Examples.unnamedKeyConfig
           Examples.emptyState []
         = (Throw (ConfigurationError msg), [EvListApiKeys (VStr "api-1")]).
Proof.
  apply (unnamed_key_rejected Examples.host Examples.quiet Examples.unnamedKeyConfig
           Examples.emptyState [] []).
  - exists Examples.unnamedKey. split; [|reflexivity]. simpl. left.
  - reflexivity.
Defined.

(** C10 (as stated) fails: with an unnamed key declared, the reconciler
    does not fail before any request: the keys are listed first. *)
Lemma unnamed_key_listed_first :
  ¬ ((∃ k, k ∈ formatInputApiKeys (cfg_apiKeys Examples.unnamedKeyConfig)
           ∧ isNil (prop "name" k) = true) →
     ∃ msg, createOrUpdateApiKeys Examples.host Examples.quiet Examples.unnamedKeyConfig
              Examples.emptyState []
            = (Throw (ConfigurationError msg), [])).
Proof.
  intros Hclaim. destruct Hclaim as [msg Hrun].
  - exists Examples.unnamedKey. split; [left|reflexivity].
  - discriminate Hrun.
Qed.

(** C2 (the code at the failing input) — an API key declared with its
    expiry in milliseconds, on a provider that keeps what it was sent:
    the first run creates the key with the expiry in seconds; the second
    run, from the state the first one persisted and the same
    configuration, classifies the key as update and sends an update. *)
Theorem second_run_updates_millis_key :
  createOrUpdateApiKeys Examples.host Examples.keyStore Examples.millisConfig
    Examples.emptyState []
  = (Ok [Examples.keyPersisted], Examples.firstRun)
  ∧ stateApiKeys (Examples.keysAfter Examples.firstRun) Examples.millisState
    = [<["id" := VStr "da2-0"]> (<["name" := VStr "k"]>
       (<["description" := VUndef]> (<["expires" := VNum 1700000000]> ∅)))]
  ∧ (∃ k, mapResult (toDeploy (stateApiKeys (Examples.keysAfter Examples.firstRun)
                                 Examples.millisState))
                    (formatInputApiKeys (cfg_apiKeys Examples.millisConfig))
          = Ok [k]
          ∧ prop "mode" k = VStr "update")
  ∧ createOrUpdateApiKeys Examples.host Examples.keyStore Examples.millisConfig
      Examples.millisState Examples.firstRun
    = (Ok [Examples.keyPersisted],
       Examples.firstRun
       ++ [EvListApiKeys (VStr "api-1");
           EvUpdateApiKey (<["apiId" := VStr "api-1"]> (<["id" := VStr "da2-0"]>
                           (<["description" := VUndef]>
                           (<["expires" := VNum 1700000000]> ∅))))]).
Proof.
  split; [vm_compute; reflexivity|].
  split; [vm_compute; reflexivity|].
  split; [|vm_compute; reflexivity].
  eexists. split; [vm_compute; reflexivity|]. vm_compute. reflexivity.
Qed.

(** ** Resolution of the templates *)

(** C4 (the code) — the templates of a declared function: the resolved
    requestMappingTemplate and the resolved responseMappingTemplate are
    both the text of the file named by the [request] field; the
    [response] field is not read. *)
Theorem response_template_reads_request_file (H : Host) (config : Config)
    (func resolved : obj) :
  withTemplates H config func = Ok resolved →
  ∃ src request,
    cfg_src config = VStr src
    ∧ prop "request" func = VStr request
    ∧ prop "requestMappingTemplate" resolved = VStr (readIfFile H (path_join H src request))
    ∧ prop "responseMappingTemplate" resolved = VStr (readIfFile H (path_join H src request)).
Proof.
  unfold withTemplates, pathJoin.
  destruct (cfg_src config) as [| | | | |src]; try done.
  destruct (prop "request" func) as [| | | | |request]; try done.
  simpl. intros [= <-]. exists src, request. repeat split; by apply prop_merge_right.
Qed.

Lemma response_template_reads_request_file_witness :
  prop "response" Examples.f1 = VStr "res.vtl"
  ∧ readIfFile Examples.host (path_join Examples.host "src" "res.vtl") = "RESPONSE TEMPLATE"
  ∧ ∃ src request,
      cfg_src Examples.emptyConfig = VStr src
      ∧ prop "request" Examples.f1 = VStr request
      ∧ prop "requestMappingTemplate" Examples.f1Resolved
        = VStr (readIfFile Examples.host (path_join Examples.host src request))
      ∧ prop "responseMappingTemplate" Examples.f1Resolved
        = VStr (readIfFile Examples.host (path_join Examples.host src request)).
Proof.
  split; [reflexivity|]. split; [reflexivity|].
  apply (response_template_reads_request_file Examples.host Examples.emptyConfig
           Examples.f1 Examples.f1Resolved).
  vm_compute. reflexivity.
Defined.

(** ** The service role *)

Import Role.

Lemma collect_explicit (dataSources : list dataSource) :
  Forall (λ ds, isNil (ds_serviceRoleArn ds) = false) dataSources →
  ∀ acc, foldl collect acc dataSources = acc.
Proof.
  induction 1 as [|ds dataSources Hds _ IH]; intros acc; simpl; [done|].
  unfold collect at 2. rewrite Hds. apply IH.
Qed.

Lemma statementsFor_explicit (H : Host) inputs accountId dataSources :
  cfg_dataSources inputs = Some dataSources →
  Forall (λ ds, isNil (ds_serviceRoleArn ds) = false) dataSources →
  statementsFor H inputs accountId = Ok [].
Proof.
  intros Hds Hall. unfold statementsFor. rewrite Hds.
  by rewrite (collect_explicit dataSources Hall).
Qed.

Lemma createRole_requests (P : Provider) statements apiName tr :
  (∃ rest, (createRole P statements apiName tr).2
           = tr ++ [EvCreateRole (template apiName +:+ "-role")] ++ rest)
  ∧ (∀ role, iamCreateRole P tr (template apiName +:+ "-role") = inr role →
     ∃ rest, (createRole P statements apiName tr).2
             = tr ++ [EvCreateRole (template apiName +:+ "-role");
                      EvCreatePolicy (template apiName +:+ "-policy") statements]
                  ++ rest).
Proof.
  unfold createRole. unfold_M.
  destruct (iamCreateRole P tr _) as [code|role].
  { split; [by exists []|done]. }
  destruct (iamCreatePolicy P _ _ statements) as [code|policy].
  { split; [eexists [_]|intros _ _; exists []]; simpl; by rewrite <- !app_assoc. }
  destruct (iamAttachRolePolicy P _ _ (prop "Arn" policy)) as [code|[]].
  { split; [eexists [_; _]|intros _ _; eexists [_]]; simpl; by rewrite <- !app_assoc. }
  split; [eexists [_; _; _]|intros _ _; eexists [_; _]]; simpl; by rewrite <- !app_assoc.
Qed.

(** C1 (the code) — [createServiceRole] when every data source carries a
    serviceRoleArn: the statements are the empty array, which is truthy,
    and [createRole] is invoked with it: once the account is known the
    role creation is requested and, when it is accepted, a policy with no
    statement. *)
Theorem explicit_roles_still_create_role (H : Host) (P : Provider) (inputs : Config)
    (dataSources : list dataSource) (accountId : jsval) (tr : trace) :
  cfg_dataSources inputs = Some dataSources →
  Forall (λ ds, isNil (ds_serviceRoleArn ds) = false) dataSources →
  getAccountId P tr = inr accountId →
  createServiceRole H P inputs tr
  = createRole P [] (cfg_name inputs) (tr ++ [EvGetAccountId])
  ∧ (∃ rest, (createServiceRole H P inputs tr).2
             = tr ++ [EvGetAccountId; EvCreateRole (template (cfg_name inputs) +:+ "-role")]
                  ++ rest)
  ∧ (∀ role, iamCreateRole P (tr ++ [EvGetAccountId])
               (template (cfg_name inputs) +:+ "-role") = inr role →
     ∃ rest, (createServiceRole H P inputs tr).2
             = tr ++ [EvGetAccountId;
                      EvCreateRole (template (cfg_name inputs) +:+ "-role");
                      EvCreatePolicy (template (cfg_name inputs) +:+ "-policy") []]
                  ++ rest).
Proof.
  intros Hds Hall Hacc.
  assert (Hrun : createServiceRole H P inputs tr
                 = createRole P [] (cfg_name inputs) (tr ++ [EvGetAccountId])).
  { unfold createServiceRole. unfold_M. rewrite Hacc.
    by rewrite (statementsFor_explicit H inputs accountId dataSources Hds Hall). }
  rewrite Hrun. split; [done|].
  destruct (createRole_requests P [] (cfg_name inputs) (tr ++ [EvGetAccountId]))
    as [[rest Hrest] Hpolicy].
  split.
  - exists rest. rewrite Hrest. by rewrite <- app_assoc.
  - intros role Hrole. destruct (Hpolicy role Hrole) as [rest' Hrest'].
    exists rest'. rewrite Hrest'. by rewrite <- app_assoc.
Qed.

Lemma explicit_roles_still_create_role_witness :
  createServiceRole Examples.host Examples.quiet Examples.ownRoleConfig []
  = (Ok (<["roleArn" := VStr "arn:aws:iam::123456789012:role/api-role"]>
         (<["policyArn" := VStr "arn:aws:iam::123456789012:policy/api-policy"]> ∅)),
     [EvGetAccountId; EvCreateRole "api-role"; EvCreatePolicy "api-policy" [];
      EvAttachRolePolicy "api-role" (VStr "arn:aws:iam::123456789012:policy/api-policy");
      EvSleep 10000]).
Proof.
  rewrite (proj1 (explicit_roles_still_create_role Examples.host Examples.quiet
                    Examples.ownRoleConfig [Examples.ownRole] (VStr "123456789012") []
                    eq_refl ltac:(repeat constructor) eq_refl)).
  vm_compute. reflexivity.
Defined.
